(** * yahoogroupsapi.py: the resilient fetch engine of yahoo-group-archiver

    A shallow embedding of [YahooGroupsAPI] (endpoint resolution, pacing,
    error classification, the JSON retry loop and the streaming download
    loop) together with the properties stated for it.

    Python integers are [Z]; the class-level dict [API_VERSIONS] is a
    [gmap]; the list [uri_parts] is a list updated by index; exceptions are
    an inductive type and every fallible step returns an [outcome]; calls
    that touch the outside world (time.sleep, requests.Session.get, the
    random generator) run in a state-and-exception monad over a [world]
    that records what happened, in order. *)

From Stdlib Require Import ZArith Lia String List DecimalString.
From Stdlib Require DecimalPos DecimalZ.
From stdpp Require Import gmap strings list fin_maps.

Open Scope string_scope.
Open Scope Z_scope.

(** ** Values exchanged with the server *)

(** What [Response.json()] can produce.  An object is the parsed Python
    dict, kept as an association of keys to values. *)
#[local] Set Warnings "-register-all".
Inductive json : Type :=
| JNull
| JBool (b : bool)
| JNum (n : Z)
| JStr (s : string)
| JArr (items : list json)
| JObj (fields : list (string * json)).
#[local] Set Warnings "register-all".

(** The body of a response as the JSON decoder sees it. *)
Inductive body : Type :=
| NoBody                (* empty body *)
| Malformed             (* bytes that are not valid JSON *)
| Parsed (v : json).    (* valid JSON text *)

Record response : Type := Response {
  status_code : Z;
  payload : body
}.

(** ** Exceptions *)

Inductive exn : Type :=
(* builtins *)
| AttributeError
| KeyError (key : string)
| TypeError
| ValueError
| NameError (name : string)
(* requests.exceptions *)
| ConnectionError
| Timeout
| HTTPError (r : response)
| OtherRequestException
(* the taxonomy of the module: YGAException and below *)
| AuthenticationError
| NotFound
| Recoverable.

Inductive outcome (A : Type) : Type :=
| Ret (a : A)
| Exc (e : exn).
Arguments Ret {A} a.
Arguments Exc {A} e.

(** An argument of a fetch as callers pass it, positional or by keyword:
    [yga.messages(123, 'raw')], [yga.messages(count=50)]. *)
Inductive part : Type :=
| PInt (n : Z)
| PStr (s : string).

(** ** The outside world *)

(** What one call of [Session.get] does: it yields a response or raises.
    [ConnectionError] and [Timeout] stand for themselves and their
    subclasses; any other transport exception is [TransportFault]. *)
Inductive transport : Type :=
| Responds (r : response)
| ConnectionFails
| TimesOut
| TransportFault.

Inductive event : Type :=
| ESleep (seconds : Z)
| EGet (uri : string) (params : list (string * part)).

Record world : Type := World {
  issued : nat;          (* requests sent so far *)
  drawn : nat;           (* random numbers drawn so far *)
  log : list event       (* what happened, oldest first *)
}.

Definition M (A : Type) : Type := world -> outcome A * world.

Definition ret {A} (a : A) : M A := fun w => (Ret a, w).
Definition raise {A} (e : exn) : M A := fun w => (Exc e, w).
Definition bind {A B} (m : M A) (k : A -> M B) : M B :=
  fun w => match m w with
           | (Ret a, w') => k a w'
           | (Exc e, w') => (Exc e, w')
           end.
Definition lift {A} (o : outcome A) : M A := fun w => (o, w).

(** [try: m  except <e>: h e] -- the handler decides by matching on the
    exception, and re-raises what it does not catch. *)
Definition try_except {A} (m : M A) (h : exn -> M A) : M A :=
  fun w => match m w with
           | (Ret a, w') => (Ret a, w')
           | (Exc e, w') => h e w'
           end.

Declare Scope eff_scope.
Delimit Scope eff_scope with eff.
Notation "x <- m ;; k" := (bind m (fun x => k))
  (at level 100, m at next level, right associativity) : eff_scope.
Notation "m ;; k" := (bind m (fun _ => k))
  (at level 100, right associativity) : eff_scope.
Open Scope eff_scope.

(** The world after one more event, and after one more request. *)
Definition logged (w : world) (e : event) : world :=
  World (issued w) (drawn w) (log w ++ [e])%list.
Definition sent (w : world) (e : event) : world :=
  World (S (issued w)) (drawn w) (log w ++ [e])%list.

Definition emit (e : event) : M unit := fun w => (Ret tt, logged w e).

(** ** Module-level definitions *)

(** [random.randint(a, b)]: an integer N with a <= N <= b, both ends
    included; it is [a + _randbelow(b - a + 1)], and raises ValueError on
    an empty range.  [draw] is the generator's raw output, reduced into
    the range. *)
Definition randint (a b : Z) (draw : Z) : outcome Z :=
  if b <? a then Exc ValueError
  else Ret (a + draw mod (b - a + 1)).

(** [def backoff_time(attempt): return random.randint(2**(attempt), 2**(attempt+1))]
    For a negative [attempt], [2**attempt] is a float and randint rejects it
    (ValueError; TypeError from Python 3.12 on). *)
Definition backoff_time (attempt : Z) (draw : Z) : outcome Z :=
  if attempt <? 0 then Exc ValueError
  else randint (2 ^ attempt) (2 ^ (attempt + 1)) draw.

Definition BASE_URI : string := "https://groups.yahoo.com/api".

Definition API_VERSIONS : gmap string string :=
  list_to_map
    [ ("HackGroupInfo", "v1");
      ("messages", "v1");
      ("files", "v2");
      ("albums", "v2");
      ("database", "v1");
      ("links", "v1");
      ("statistics", "v1");
      ("polls", "v1");
      ("attachments", "v1");
      ("members", "v1") ].

(** Python's [str] on a path part. *)
Definition str (p : part) : string :=
  match p with
  | PInt n => NilZero.string_of_int (Z.to_int n)
  | PStr s => s
  end.

(** [sep.join(l)] *)
Definition join (sep : string) (l : list string) : string := String.concat sep l.

(** ** Library calls the engine relies on *)

Definition obind {A B} (o : outcome A) (k : A -> outcome B) : outcome B :=
  match o with
  | Ret a => k a
  | Exc e => Exc e
  end.

(** [Response.raise_for_status()]: HTTPError for 4xx and 5xx, nothing
    otherwise (so not on a 307, as get_json remarks). *)
Definition raise_for_status (r : response) : outcome unit :=
  if (400 <=? status_code r) && (status_code r <? 600)
  then Exc (HTTPError r)
  else Ret tt.

(** [Response.json()]: the decoder raises a ValueError on an empty or
    malformed body. *)
Definition json_of (r : response) : outcome json :=
  match payload r with
  | Parsed v => Ret v
  | NoBody | Malformed => Exc ValueError
  end.

Fixpoint dict_get (key : string) (fields : list (string * json)) : option json :=
  match fields with
  | [] => None
  | (k, v) :: rest => if String.eqb k key then Some v else dict_get key rest
  end.

(** [v[key]] for a string key: KeyError on a dict without the key;
    TypeError on anything that is not a dict (list and str indices must be
    integers; None, bool and numbers are not subscriptable). *)
Definition getitem (v : json) (key : string) : outcome json :=
  match v with
  | JObj fields =>
      match dict_get key fields with
      | Some x => Ret x
      | None => Exc (KeyError key)
      end
  | JNull | JBool _ | JNum _ | JStr _ | JArr _ => Exc TypeError
  end.

(** ** class YahooGroupsAPI *)

(** The fields of an instance that the engine reads ([__init__]). *)
Record api : Type := Api {
  group : string;
  delay : Z              (* seconds, default 0 *)
}.

Definition tries : Z := 5.

(** [range(n)] *)
Definition range (n : Z) : list Z := map Z.of_nat (seq 0 (Z.to_nat n)).

(** The name [i] of [backoff_time(i)], line 158.  It is assigned neither in
    get_json nor at module level and is no builtin: evaluating it raises
    NameError. *)
Definition load_i : outcome Z := Exc (NameError "i").

Section Engine.

(** The server and the network: what the n-th request sent gets. *)
Variable srv : nat -> transport.
(** The random generator: its n-th raw output. *)
Variable rnd : nat -> Z.

Variable self : api.

(** [time.sleep(seconds)]; a negative length is a ValueError. *)
Definition sleep (seconds : Z) : M unit :=
  if seconds <? 0 then raise ValueError else emit (ESleep seconds).

(** [self.s.get(uri, params=...)] *)
Definition s_get (uri : string) (params : list (string * part)) : M response :=
  fun w =>
    let w' := sent w (EGet uri params) in
    match srv (issued w) with
    | Responds r => (Ret r, w')
    | ConnectionFails => (Exc ConnectionError, w')
    | TimesOut => (Exc Timeout, w')
    | TransportFault => (Exc OtherRequestException, w')
    end.

Definition random_draw : M Z :=
  fun w => (Ret (rnd (drawn w)), World (issued w) (S (drawn w)) (log w)).

(** *** download_file, up to the [break] (lines 96-107)

    [retries] counts down from 5; the test
    [r.status_code == 400 and retries > 0] is the match on [retries]
    followed by the test on the status.  The result is the response the
    loop ends with, whose content the rest of the method hands out. *)
Fixpoint download_attempts (url : string) (retries : nat) : M response :=
  sleep (delay self) ;;
  r <- s_get url [] ;;
  match retries with
  | S retries' =>
      if status_code r =? 400 then
        sleep 5 ;;
        download_attempts url retries'
      else
        lift (raise_for_status r) ;;
        ret r
  | O =>
      lift (raise_for_status r) ;;
      ret r
  end.

Definition download_file (url : string) : M response :=
  download_attempts url 5.

(** *** get_json *)

(** Lines 118-124: the URI of a target.  [self.API_VERSIONS[target]] is a
    KeyError for a target that is not in the dict. *)
Definition uri_of (target : string) (parts : list part) : outcome string :=
  obind (match API_VERSIONS !! target with
         | Some version => Ret version
         | None => Exc (KeyError target)
         end)
    (fun version =>
       let uri_parts := [BASE_URI; version; "groups"; group self; target] in
       let uri_parts := (uri_parts ++ map str parts)%list in
       let uri_parts :=
         if String.eqb target "HackGroupInfo" then <[4%nat:=""]> uri_parts
         else uri_parts in
       Ret (join "/" uri_parts)).

(** Lines 131-136: the body of the inner [try]. *)
Definition request_json (uri : string) (opts : list (string * part)) : M json :=
  r <- s_get uri opts ;;
  lift (raise_for_status r) ;;
  if negb (status_code r =? 200) then raise (HTTPError r)
  else lift (obind (json_of r) (fun v => getitem v "ygData")).

(** Lines 142-146: best-effort extraction of the error detail. *)
Definition extract_ygError (r : response) : outcome json :=
  match obind (json_of r) (fun v => getitem v "ygError") with
  | Ret v => Ret v
  | Exc ValueError | Exc (KeyError _) => Ret (JObj [])
  | Exc e => Exc e
  end.

(** Lines 148-155: the exception a status code is turned into. *)
Definition error_of_status (code : Z) : exn :=
  if (code =? 307) || (code =? 401) || (code =? 403) then AuthenticationError
  else if code =? 404 then NotFound
  else Recoverable.

(** Lines 137-155: the two [except] clauses of the inner [try]. *)
Definition classify (e : exn) : M json :=
  match e with
  | ConnectionError | Timeout => raise Recoverable
  | HTTPError r =>
      ygError <- lift (extract_ygError r) ;;
      let code := status_code r in
      raise (error_of_status code)
  | _ => raise e
  end.

(** Lines 130-155: the inner [try] statement, one attempt. *)
Definition attempt_once (uri : string) (opts : list (string * part)) : M json :=
  try_except (request_json uri opts) classify.

(** Lines 128-163: [for attempt in range(tries)], from the attempts still
    pending.  Falling off the loop returns None. *)
Fixpoint attempts (uri : string) (opts : list (string * part))
         (pending : list Z) : M json :=
  match pending with
  | [] => ret JNull
  | attempt :: later =>
      try_except
        (attempt_once uri opts)
        (fun e =>
           match e with
           | Recoverable =>
               if attempt <? tries - 1 then
                 i <- lift load_i ;;
                 draw <- random_draw ;;
                 delay <- lift (backoff_time i draw) ;;
                 sleep delay ;;
                 attempts uri opts later
               else
                 raise Recoverable
           | _ => raise e
           end)
  end.

Definition get_json (target : string) (parts : list part)
           (opts : list (string * part)) : M json :=
  uri <- lift (uri_of target parts) ;;
  sleep (delay self) ;;
  attempts uri opts (range tries).

(** [__getattr__(name)], which Python calls for a name that is no attribute
    of the instance or of its class: the REST stub
    [functools.partial(self.get_json, name)]. *)
Definition getattr (name : string)
  : outcome (list part -> list (string * part) -> M json) :=
  match API_VERSIONS !! name with
  | None => Exc AttributeError
  | Some _ => Ret (get_json name)
  end.

(** A fetch through the stub: a call [yga.NAME] with positional parts and
    keyword options. *)
Definition fetch (name : string) (parts : list part)
           (opts : list (string * part)) : M json :=
  stub <- lift (getattr name) ;;
  stub parts opts.

End Engine.

(** ** Set-up of an instance: the imports, __init__, set_warc_writer *)

(** Lines 9-13: how the import of warcio ended when the module was loaded.
    When it fails, [warcio_failed] is the ImportError (a true value) and the
    name [capture_http] is never bound. *)
Inductive warcio_import : Type :=
| WarcioImported
| WarcioMissing.

Definition warcio_failed (m : warcio_import) : bool :=
  match m with
  | WarcioImported => false
  | WarcioMissing => true
  end.

(** What set_warc_writer can raise: the stored ImportError, or a builtin. *)
Inductive raised : Type :=
| RaisedImportError
| Raised (e : exn).

(** The two values of [http_context]. *)
Inductive http_context : Type :=
| dummy_contextmanager
| capture_http.

(** Which jar the session keeps its cookies in: the one requests.Session()
    made, or the caller's. *)
Inductive jar : Type :=
| SessionJar
| CallerJar.

Section Setup.

(** The type of WARC writers. *)
Variable W : Type.

Record client : Type := Client {
  engine : api;                       (* group, delay *)
  headers : gmap string string;       (* self.s.headers *)
  cookies : jar;                      (* self.s.cookies *)
  ww : option W;
  context : http_context
}.

(** Truth value of the [cookie_jar] argument, given as the cookies it
    holds: None is false, and so is a jar without cookies (its [__len__]
    is 0). *)
Definition truthy (cookie_jar : option (list (string * string))) : bool :=
  match cookie_jar with
  | None | Some [] => false
  | Some (_ :: _) => true
  end.

(** [d.update(other)]: the entries of [other] replace those of [d]. *)
Definition update (d other : gmap string string) : gmap string string :=
  other ∪ d.

(** [__init__(self, group, cookie_jar=None, headers={}, delay=0)] *)
Definition init (group : string) (cookie_jar : option (list (string * string)))
           (extra : gmap string string) (delay : Z) : client :=
  {| engine := Api group delay;
     cookies := if truthy cookie_jar then CallerJar else SessionJar;
     headers := update {[ "Referer" := BASE_URI ]} extra;
     ww := None;
     context := dummy_contextmanager |}.

(** [set_warc_writer(self, ww)]: what is raised, if anything, and the
    instance afterwards. *)
Definition set_warc_writer (m : warcio_import) (self : client) (w : option W)
  : option raised * client :=
  if bool_decide (w <> None) && warcio_failed m then
    (Some RaisedImportError, self)
  else
    let self := Client (engine self) (headers self) (cookies self) w (context self) in
    match m with
    | WarcioMissing => (Some (Raised (NameError "capture_http")), self)
    | WarcioImported =>
        (None, Client (engine self) (headers self) (cookies self) (ww self) capture_http)
    end.

End Setup.

Arguments engine {W} _.
Arguments headers {W} _.
Arguments cookies {W} _.
Arguments ww {W} _.
Arguments context {W} _.

(** ** The exception classes of the module (lines 26-39) *)

Module Taxonomy.

Inductive class : Type :=
| YGAException
| Unrecoverable
| AuthenticationError
| NotFound
| Recoverable.

(** A class and its bases up to YGAException, nearest first. *)
Definition mro (c : class) : list class :=
  match c with
  | YGAException => [YGAException]
  | Unrecoverable => [Unrecoverable; YGAException]
  | AuthenticationError => [AuthenticationError; Unrecoverable; YGAException]
  | NotFound => [NotFound; Unrecoverable; YGAException]
  | Recoverable => [Recoverable; YGAException]
  end.

Definition eqb (a b : class) : bool :=
  match a, b with
  | YGAException, YGAException
  | Unrecoverable, Unrecoverable
  | AuthenticationError, AuthenticationError
  | NotFound, NotFound
  | Recoverable, Recoverable => true
  | _, _ => false
  end.

Definition issubclass (c k : class) : bool := existsb (eqb k) (mro c).

End Taxonomy.

(** The class of an exception, when it is one of the module's. *)
Definition class_of (e : exn) : option Taxonomy.class :=
  match e with
  | AuthenticationError => Some Taxonomy.AuthenticationError
  | NotFound => Some Taxonomy.NotFound
  | Recoverable => Some Taxonomy.Recoverable
  | _ => None
  end.

(** Whether [except k:] catches [e], for a class [k] of the module. *)
Definition caught_by (k : Taxonomy.class) (e : exn) : bool :=
  match class_of e with
  | Some c => Taxonomy.issubclass c k
  | None => false
  end.

(** A world in which nothing has happened yet. *)
Definition fresh : world := World 0 0 [].

(** ** Vocabulary of the statements *)

(** What one attempt ends with, read off the reply alone. *)
Definition verdict (t : transport) : outcome json :=
  match t with
  | Responds r =>
      if status_code r =? 200
      then obind (json_of r) (fun v => getitem v "ygData")
      else obind (extract_ygError r)
             (fun _ => Exc (error_of_status (status_code r)))
  | ConnectionFails | TimesOut => Exc Recoverable
  | TransportFault => Exc OtherRequestException
  end.

Definition is_dict (v : json) : bool :=
  match v with
  | JObj _ => true
  | _ => false
  end.

(** Bodies on which reading ygError either works or fails with one of the
    two exceptions that are caught: no body, no JSON, or a JSON object. *)
Definition undecodable_or_dict (b : body) : bool :=
  match b with
  | NoBody | Malformed => true
  | Parsed v => is_dict v
  end.

(** The world after the pacing sleep and the one request of a get_json. *)
Definition after_one_request (self : api) (opts : list (string * part))
           (uri : string) (w : world) : world :=
  sent (logged w (ESleep (delay self))) (EGet uri opts).




Definition is_400 (t : transport) : bool :=
  match t with
  | Responds r => status_code r =? 400
  | _ => false
  end.

(** The requests number [from], [from + 1], ... [from + k - 1] are all
    answered with a 400. *)
Fixpoint consecutive_400 (srv : nat -> transport) (from k : nat) : bool :=
  match k with
  | O => true
  | S k' => is_400 (srv from) && consecutive_400 srv (S from) k'
  end.

(** What one retried attempt leaves in the log: the pacing sleep, the
    request, the fixed pause. *)
Definition retried (d : Z) (url : string) : list event :=
  [ESleep d; EGet url []; ESleep 5].

Fixpoint retried_times (k : nat) (d : Z) (url : string) : list event :=
  match k with
  | O => []
  | S k' => (retried d url ++ retried_times k' d url)%list
  end.

(** What the loop ends with once a reply is not retried. *)
Definition settle (r : response) : outcome response :=
  if (400 <=? status_code r) && (status_code r <? 600)
  then Exc (HTTPError r)
  else Ret r.

(** The keys of API_VERSIONS. *)
Definition resource_names : list string :=
  ["HackGroupInfo"; "messages"; "files"; "albums"; "database"; "links";
   "statistics"; "polls"; "attachments"; "members"].

(** A URI up to and including the target segment. *)
Definition stem (self : api) (target version : string) : string :=
  (BASE_URI ++ "/" ++ version ++ "/groups/" ++ group self ++ "/"
   ++ (if String.eqb target "HackGroupInfo" then "" else target))%string.

(** The path parts as they end a URI: each part after a slash. *)
Fixpoint trail (parts : list part) : string :=
  match parts with
  | [] => ""
  | p :: rest => ("/" ++ str p ++ trail rest)%string
  end.

(** The requests among some events, and the seconds slept. *)
Fixpoint requests (evs : list event) : nat :=
  match evs with
  | [] => 0
  | EGet _ _ :: rest => S (requests rest)
  | ESleep _ :: rest => requests rest
  end.

Fixpoint slept (evs : list event) : Z :=
  match evs with
  | [] => 0
  | ESleep s :: rest => s + slept rest
  | EGet _ _ :: rest => slept rest
  end.

(** The exception a call of Session.get raises, if it raises. *)
Definition transport_exn (t : transport) : option exn :=
  match t with
  | Responds _ => None
  | ConnectionFails => Some ConnectionError
  | TimesOut => Some Timeout
  | TransportFault => Some OtherRequestException
  end.

(** The exceptions that can leave get_json for a given target. *)
Definition leaves_get_json (target : string) (e : exn) : Prop :=
  e = KeyError target \/ e = KeyError "ygData" \/ e = ValueError
  \/ e = TypeError \/ e = NameError "i" \/ e = OtherRequestException
  \/ e = AuthenticationError \/ e = NotFound.

Ltac eff := unfold bind, ret, raise, lift, try_except, emit in *; cbn in *.

(** * Properties *)

(** ** The backoff duration *)

Lemma randint_range (a b draw : Z) :
  a <= b -> exists v, randint a b draw = Ret v /\ a <= v <= b.
Proof.
  intros Hab. unfold randint.
  destruct (Z.ltb_spec b a) as [Hlt | _]; [lia |].
  eexists; split; [reflexivity |].
  pose proof (Z.mod_pos_bound draw (b - a + 1)). lia.
Qed.

Lemma randint_low (a b : Z) : a <= b -> randint a b 0 = Ret a.
Proof.
  intros Hab. unfold randint.
  destruct (Z.ltb_spec b a) as [Hlt | _]; [lia |].
  rewrite Z.mod_0_l by lia. f_equal. lia.
Qed.

Lemma randint_high (a b : Z) : a <= b -> randint a b (b - a) = Ret b.
Proof.
  intros Hab. unfold randint.
  destruct (Z.ltb_spec b a) as [Hlt | _]; [lia |].
  rewrite Z.mod_small by lia. f_equal. lia.
Qed.

Lemma pow2_succ_ge (n : Z) : 0 <= n -> 0 < 2 ^ n /\ 2 ^ (n + 1) = 2 * 2 ^ n.
Proof.
  intros Hn. split.
  - apply Z.pow_pos_nonneg; lia.
  - rewrite Z.pow_add_r by lia. lia.
Qed.

(** C10. For every non-negative attempt number n, backoff_time(n) returns an
    integer v with 2^n <= v <= 2^(n+1), whatever the generator draws, and
    both ends of that closed interval are values it can return. *)
Theorem backoff_time_closed_interval (n : Z) :
  0 <= n ->
  (forall draw, exists v, backoff_time n draw = Ret v /\ 2 ^ n <= v <= 2 ^ (n + 1))
  /\ (exists draw, backoff_time n draw = Ret (2 ^ n))
  /\ (exists draw, backoff_time n draw = Ret (2 ^ (n + 1))).
Proof.
  intros Hn. destruct (pow2_succ_ge n Hn) as [Hpos Hsucc].
  assert (Hle : 2 ^ n <= 2 ^ (n + 1)) by lia.
  unfold backoff_time.
  destruct (Z.ltb_spec n 0) as [Hneg | _]; [lia |].
  split; [| split].
  - intros draw. by apply randint_range.
  - exists 0. by apply randint_low.
  - exists (2 ^ (n + 1) - 2 ^ n). by apply randint_high.
Qed.

Lemma backoff_time_closed_interval_witness :
  0 <= 3
  /\ (forall draw, exists v, backoff_time 3 draw = Ret v /\ 2 ^ 3 <= v <= 2 ^ (3 + 1))
  /\ (exists draw, backoff_time 3 draw = Ret (2 ^ 3))
  /\ (exists draw, backoff_time 3 draw = Ret (2 ^ (3 + 1))).
Proof.
  split; [lia |]. apply (backoff_time_closed_interval 3). lia.
Defined.

(** ** Endpoint resolution *)

(** C6. For group "mygroup", the URI of resource "messages" with path parts
    (123, "raw") is BASE_URI/v1/groups/mygroup/messages/123/raw; for the
    root-info resource HackGroupInfo the resource segment is the empty
    string, so without path parts the URI is BASE_URI/v1/groups/mygroup/
    (and likewise BASE_URI/v1/groups/g/ for any group g). *)
Theorem uri_of_messages_and_root (g : string) (d : Z) :
  uri_of (Api "mygroup" d) "messages" [PInt 123; PStr "raw"]
    = Ret (BASE_URI ++ "/v1/groups/mygroup/messages/123/raw")%string
  /\ uri_of (Api "mygroup" d) "HackGroupInfo" []
    = Ret (BASE_URI ++ "/v1/groups/mygroup/")%string
  /\ uri_of (Api g d) "HackGroupInfo" []
    = Ret (BASE_URI ++ "/v1/groups/" ++ g ++ "/")%string.
Proof.
  split; [reflexivity | split; [reflexivity |]].
  unfold uri_of. cbn. f_equal.
Qed.

(** Every known resource resolves, to a URI under its own API version. *)
Lemma uri_of_known (self : api) (target version : string) (parts : list part) :
  API_VERSIONS !! target = Some version ->
  exists uri, uri_of self target parts = Ret uri.
Proof. intros H. unfold uri_of. rewrite H. cbn. eauto. Qed.

Lemma uri_of_unknown (self : api) (target : string) (parts : list part) :
  API_VERSIONS !! target = None ->
  uri_of self target parts = Exc (KeyError target).
Proof. intros H. unfold uri_of. by rewrite H. Qed.

(** C5. For a resource name that is not a key of API_VERSIONS, a fetch fails
    at once with a local error and the world is left as it was: no sleep, no
    request.  Through the REST stub the error is AttributeError; calling
    get_json with that name directly, it is the KeyError of the lookup. *)
Theorem unknown_resource_fails_before_io
    (srv : nat -> transport) (rnd : nat -> Z) (self : api) (name : string)
    (parts : list part) (opts : list (string * part)) (w : world) :
  API_VERSIONS !! name = None ->
  fetch srv rnd self name parts opts w = (Exc AttributeError, w)
  /\ get_json srv rnd self name parts opts w = (Exc (KeyError name), w).
Proof.
  intros Hname. split.
  - unfold fetch, getattr, bind, lift. by rewrite Hname.
  - unfold get_json, bind, lift. by rewrite (uri_of_unknown _ _ _ Hname).
Qed.

Lemma unknown_resource_fails_before_io_witness :
  API_VERSIONS !! "topics" = None
  /\ fetch (fun _ => TimesOut) (fun _ => 0) (Api "mygroup" 0) "topics"
       [PInt 1] [] fresh = (Exc AttributeError, fresh)
  /\ get_json (fun _ => TimesOut) (fun _ => 0) (Api "mygroup" 0) "topics"
       [PInt 1] [] fresh = (Exc (KeyError "topics"), fresh).
Proof.
  split; [reflexivity |].
  apply (unknown_resource_fails_before_io
           (fun _ => TimesOut) (fun _ => 0) (Api "mygroup" 0) "topics").
  reflexivity.
Defined.

(** ** One attempt of the JSON path *)

Lemma sleep_ok (d : Z) (w : world) :
  0 <= d -> sleep d w = (Ret tt, logged w (ESleep d)).
Proof.
  intros Hd. unfold sleep. by destruct (Z.ltb_spec d 0); [lia |].
Qed.

Lemma sleep_negative (d : Z) (w : world) :
  d < 0 -> sleep d w = (Exc ValueError, w).
Proof.
  intros Hd. unfold sleep. by destruct (Z.ltb_spec d 0); [| lia].
Qed.

Section Attempt.

Variable srv : nat -> transport.
Variable rnd : nat -> Z.
Variable self : api.
Variable uri : string.
Variable opts : list (string * part).

(** An attempt sends exactly one request and ends as [verdict] says. *)
Lemma attempt_once_spec (w : world) :
  attempt_once srv uri opts w
  = (verdict (srv (issued w)), sent w (EGet uri opts)).
Proof.
  unfold attempt_once, request_json, s_get, verdict. eff.
  destruct (srv (issued w)) as [r | | |]; try reflexivity.
  unfold raise_for_status.
  destruct (Z.eqb_spec (status_code r) 200) as [H200 | Hn200].
  - rewrite H200. cbn.
    destruct (obind (json_of r) _) as [v | e] eqn:Hv; [reflexivity |].
    unfold json_of, getitem in Hv.
    destruct (payload r) as [| | []]; cbn in Hv; try congruence;
      try (injection Hv as <-; reflexivity).
    destruct (dict_get _ _); [congruence |]. by injection Hv as <-.
  - destruct (_ && _); cbn; by destruct (extract_ygError r).
Qed.

(** One turn of the loop: whatever the reply, the loop is left after this
    one request.  A Recoverable attempt before the last one ends in the
    NameError of [backoff_time(i)]; on the last one it is re-raised. *)
Lemma attempts_step (attempt : Z) (later : list Z) (w : world) :
  attempts srv rnd uri opts (attempt :: later) w
  = (match verdict (srv (issued w)) with
     | Exc Recoverable =>
         if attempt <? tries - 1 then Exc (NameError "i") else Exc Recoverable
     | o => o
     end,
     sent w (EGet uri opts)).
Proof.
  cbn [attempts]. unfold try_except at 1. rewrite attempt_once_spec.
  destruct (verdict _) as [v | []]; try reflexivity.
  destruct (attempt <? tries - 1); reflexivity.
Qed.

End Attempt.

(** ** get_json as a whole *)

Lemma range_tries : range tries = [0; 1; 2; 3; 4].
Proof. reflexivity. Qed.

(** With a known target and a pacing delay that time.sleep accepts, a call
    of get_json sleeps once, sends one request and is over: every
    Recoverable first attempt ends in the NameError. *)
Lemma get_json_spec
    (srv : nat -> transport) (rnd : nat -> Z) (self : api) (target : string)
    (parts : list part) (opts : list (string * part)) (uri : string) (w : world) :
  uri_of self target parts = Ret uri ->
  0 <= delay self ->
  get_json srv rnd self target parts opts w
  = (match verdict (srv (issued w)) with
     | Exc Recoverable => Exc (NameError "i")
     | o => o
     end,
     sent (logged w (ESleep (delay self))) (EGet uri opts)).
Proof.
  intros Huri Hdelay. unfold get_json. rewrite Huri.
  unfold bind at 1, lift. unfold bind. rewrite sleep_ok by done.
  rewrite range_tries, attempts_step. cbn [issued logged].
  by destruct (verdict _) as [v | []].
Qed.


(** A call of get_json sends at most one request, whatever the server does:
    the attempt loop is never entered a second time. *)
Lemma get_json_at_most_one_request
    (srv : nat -> transport) (rnd : nat -> Z) (self : api) (target : string)
    (parts : list part) (opts : list (string * part)) (w : world) :
  (issued (snd (get_json srv rnd self target parts opts w)) <= S (issued w))%nat.
Proof.
  destruct (uri_of self target parts) as [uri | e] eqn:Huri.
  - destruct (Z.lt_ge_cases (delay self) 0) as [Hneg | Hpos].
    + unfold get_json. rewrite Huri. unfold bind at 1, lift. unfold bind.
      rewrite sleep_negative by done. cbn. lia.
    + rewrite (get_json_spec _ _ _ _ _ _ uri) by done. cbn. lia.
  - unfold get_json. rewrite Huri. cbn. lia.
Qed.

(** The attempt loop itself does not pace: the first thing a turn of the
    loop adds to the log is the request. *)
Lemma attempts_start_with_the_request
    (srv : nat -> transport) (rnd : nat -> Z) (uri : string)
    (opts : list (string * part)) (attempt : Z) (later : list Z) (w : world) :
  log (snd (attempts srv rnd uri opts (attempt :: later) w))
  = (log w ++ [EGet uri opts])%list.
Proof. by rewrite attempts_step. Qed.

(** ** Classification of a reply that is not a 200 *)

Lemma extract_ygError_swallowed (r : response) :
  undecodable_or_dict (payload r) = true -> exists y, extract_ygError r = Ret y.
Proof.
  unfold extract_ygError, json_of. destruct (payload r) as [| | v]; cbn; eauto.
  destruct v; cbn; try discriminate. intros _.
  destruct (dict_get _ _); eauto.
Qed.

(** A body that is JSON but no object: the subscript raises TypeError,
    which [except (ValueError, KeyError)] lets through. *)
Lemma extract_ygError_not_swallowed (r : response) (v : json) :
  payload r = Parsed v -> is_dict v = false -> extract_ygError r = Exc TypeError.
Proof.
  intros Hp Hv. unfold extract_ygError, json_of. rewrite Hp.
  by destruct v.
Qed.

Lemma verdict_by_status (r : response) :
  status_code r <> 200 ->
  undecodable_or_dict (payload r) = true ->
  verdict (Responds r) = Exc (error_of_status (status_code r)).
Proof.
  intros Hs Hb. cbn. destruct (Z.eqb_spec (status_code r) 200); [done |].
  by destruct (extract_ygError_swallowed r Hb) as [y ->].
Qed.

Lemma verdict_non_dict (r : response) (v : json) :
  status_code r <> 200 ->
  payload r = Parsed v -> is_dict v = false ->
  verdict (Responds r) = Exc TypeError.
Proof.
  intros Hs Hp Hv. cbn. destruct (Z.eqb_spec (status_code r) 200); [done |].
  by rewrite (extract_ygError_not_swallowed r v).
Qed.

Section FirstReply.

Variable srv : nat -> transport.
Variable rnd : nat -> Z.
Variable self : api.
Variable target : string.
Variable parts : list part.
Variable opts : list (string * part).
Variable uri : string.
Variable w : world.
Variable r : response.

Hypothesis Huri : uri_of self target parts = Ret uri.
Hypothesis Hdelay : 0 <= delay self.
Hypothesis Hreply : srv (issued w) = Responds r.

(** X3. 307, 401, 403 with a body that is absent, undecodable or an object:
    AuthenticationError, after one request and no backoff. *)
Lemma auth_status_raises_AuthenticationError :
  status_code r = 307 \/ status_code r = 401 \/ status_code r = 403 ->
  undecodable_or_dict (payload r) = true ->
  get_json srv rnd self target parts opts w
  = (Exc AuthenticationError, after_one_request self opts uri w).
Proof.
  intros Hs Hb. rewrite (get_json_spec _ _ _ _ _ _ uri) by done.
  rewrite Hreply, verdict_by_status by (done || lia).
  by destruct Hs as [-> | [-> | ->]].
Qed.

(** X4. 404 with a body that is absent, undecodable or an object: NotFound,
    after one request and no backoff. *)
Lemma not_found_status_raises_NotFound :
  status_code r = 404 ->
  undecodable_or_dict (payload r) = true ->
  get_json srv rnd self target parts opts w
  = (Exc NotFound, after_one_request self opts uri w).
Proof.
  intros Hs Hb. rewrite (get_json_spec _ _ _ _ _ _ uri) by done.
  rewrite Hreply, verdict_by_status by (done || lia).
  by rewrite Hs.
Qed.

(** X5. Any other status but 200 (2xx such as 204 included), with such a
    body: the attempt is classified Recoverable, and the call ends at once in the NameError raised by
    [backoff_time(i)]: one request, no backoff sleep, no random draw. *)
Lemma retryable_status_raises_NameError :
  status_code r <> 200 -> status_code r <> 307 -> status_code r <> 401 ->
  status_code r <> 403 -> status_code r <> 404 ->
  undecodable_or_dict (payload r) = true ->
  get_json srv rnd self target parts opts w
  = (Exc (NameError "i"), after_one_request self opts uri w).
Proof.
  intros H200 H307 H401 H403 H404 Hb.
  rewrite (get_json_spec _ _ _ _ _ _ uri) by done.
  rewrite Hreply, verdict_by_status by done.
  unfold error_of_status.
  destruct (Z.eqb_spec (status_code r) 307); [done |].
  destruct (Z.eqb_spec (status_code r) 401); [done |].
  destruct (Z.eqb_spec (status_code r) 403); [done |].
  by destruct (Z.eqb_spec (status_code r) 404).
Qed.

(** X7. Any status but 200 with a body that is JSON but no object: the
    TypeError of the ygError extraction leaves get_json, whatever the
    status. *)
Lemma non_dict_error_body_raises_TypeError (v : json) :
  status_code r <> 200 ->
  payload r = Parsed v -> is_dict v = false ->
  get_json srv rnd self target parts opts w
  = (Exc TypeError, after_one_request self opts uri w).
Proof.
  intros Hs Hp Hv. rewrite (get_json_spec _ _ _ _ _ _ uri) by done.
  by rewrite Hreply, (verdict_non_dict r v).
Qed.

End FirstReply.

(** X6. A failed connection or a timeout on the first attempt ends the same
    way as a retryable status: NameError after one request, not
    Recoverable. *)
Lemma network_error_raises_NameError
    (srv : nat -> transport) (rnd : nat -> Z) (self : api) (target : string)
    (parts : list part) (opts : list (string * part)) (uri : string) (w : world) :
  uri_of self target parts = Ret uri ->
  0 <= delay self ->
  srv (issued w) = ConnectionFails \/ srv (issued w) = TimesOut ->
  get_json srv rnd self target parts opts w
  = (Exc (NameError "i"), after_one_request self opts uri w).
Proof.
  intros Huri Hdelay Hsrv. rewrite (get_json_spec _ _ _ _ _ _ uri) by done.
  by destruct Hsrv as [-> | ->].
Qed.

(** ** The JSON path on concrete replies *)

(** C1, on the code as written.  A server that answers every request with
    503: get_json sleeps the pacing delay, sends ONE request, classifies the
    reply as Recoverable and, on the way to the backoff, raises NameError
    for the unbound name [i] of [backoff_time(i)].  No second attempt, no
    backoff sleep, no random draw, and the error is not Recoverable. *)
Theorem get_json_503_stops_with_NameError (rnd : nat -> Z) :
  get_json (fun _ => Responds (Response 503 NoBody)) rnd (Api "mygroup" 0)
    "messages" [] [] fresh
  = (Exc (NameError "i"),
     World 1 0 [ESleep 0; EGet (BASE_URI ++ "/v1/groups/mygroup/messages") []]).
Proof. reflexivity. Qed.

(** C3, on the code as written.  A 401, 403 or 307 whose body is valid JSON
    but not an object (here the JSON string "Unauthorized") does not end in
    AuthenticationError: the TypeError of [e.response.json()['ygError']]
    is not among the exceptions caught and leaves get_json. *)
Theorem auth_status_with_json_string_body_raises_TypeError (rnd : nat -> Z) :
  let reply code := fun _ : nat => Responds (Response code (Parsed (JStr "Unauthorized"))) in
  let call code := fst (get_json (reply code) rnd (Api "mygroup" 0) "messages" [] [] fresh) in
  call 401 = Exc TypeError /\ call 403 = Exc TypeError /\ call 307 = Exc TypeError.
Proof. repeat split. Qed.

(** C4, on the code as written.  A 404 whose body is valid JSON but not an
    object (here the JSON array []) ends in TypeError, not in NotFound. *)
Theorem not_found_with_json_array_body_raises_TypeError (rnd : nat -> Z) :
  get_json (fun _ => Responds (Response 404 (Parsed (JArr [])))) rnd
    (Api "mygroup" 0) "messages" [] [] fresh
  = (Exc TypeError,
     World 1 0 [ESleep 0; EGet (BASE_URI ++ "/v1/groups/mygroup/messages") []]).
Proof. reflexivity. Qed.

(** C9, on the code as written.  With the same status 404, a body that is
    absent, malformed, an object without ygError or an object with ygError
    gives NotFound; a body that parses but is no object (null, a list: also
    without a ygError field) gives TypeError.  The outcome is not a function
    of the status code alone. *)
Theorem error_body_shape_changes_the_outcome (rnd : nat -> Z) :
  let call b := fst (get_json (fun _ => Responds (Response 404 b)) rnd
                       (Api "mygroup" 0) "messages" [] [] fresh) in
  call NoBody = Exc NotFound
  /\ call Malformed = Exc NotFound
  /\ call (Parsed (JObj [])) = Exc NotFound
  /\ call (Parsed (JObj [("ygError", JObj [("code", JNum 1101)])])) = Exc NotFound
  /\ call (Parsed JNull) = Exc TypeError
  /\ call (Parsed (JArr [])) = Exc TypeError.
Proof. repeat split. Qed.

(** How the loop stands when attempt k begins: the attempts k, k+1, ...
    of range(tries) are pending. *)
Lemma pending_from (k : nat) :
  (k < Z.to_nat tries)%nat ->
  drop k (range tries) = Z.of_nat k :: drop (S k) (range tries).
Proof.
  intros Hk. rewrite range_tries.
  do 5 (destruct k as [| k]; [reflexivity |]).
  unfold tries in Hk. lia.
Qed.

(** C7. When attempt k (k < 5) of the loop gets a 200 response whose JSON
    envelope is an object with the field ygData, the loop returns that
    field's value; the world moves by exactly this one request: no further
    attempt, no sleep, no random draw. *)
Theorem success_returns_ygData
    (srv : nat -> transport) (rnd : nat -> Z) (uri : string)
    (opts : list (string * part)) (k : nat) (w : world)
    (r : response) (fields : list (string * json)) (v : json) :
  (k < Z.to_nat tries)%nat ->
  srv (issued w) = Responds r ->
  status_code r = 200 ->
  payload r = Parsed (JObj fields) ->
  dict_get "ygData" fields = Some v ->
  attempts srv rnd uri opts (drop k (range tries)) w
  = (Ret v, sent w (EGet uri opts)).
Proof.
  intros Hk Hsrv Hstatus Hbody Hfield.
  rewrite (pending_from k Hk), attempts_step, Hsrv.
  unfold verdict, json_of. rewrite Hstatus, Hbody. cbn.
  by rewrite Hfield.
Qed.

Lemma success_returns_ygData_witness :
  attempts (fun _ => Responds (Response 200 (Parsed (JObj [("ygData", JNum 7)]))))
    (fun _ => 0) "u" [] (drop 3 (range tries)) fresh
  = (Ret (JNum 7), sent fresh (EGet "u" [])).
Proof.
  apply (success_returns_ygData _ _ _ _ 3%nat fresh
           (Response 200 (Parsed (JObj [("ygData", JNum 7)])))
           [("ygData", JNum 7)]).
  - unfold tries. lia.
  - reflexivity.
  - reflexivity.
  - reflexivity.
  - reflexivity.
Defined.

(** The same for a whole call: a first reply of that kind is the result. *)
Lemma get_json_returns_ygData
    (srv : nat -> transport) (rnd : nat -> Z) (self : api) (target : string)
    (parts : list part) (opts : list (string * part)) (uri : string)
    (w : world) (r : response) (fields : list (string * json)) (v : json) :
  uri_of self target parts = Ret uri ->
  0 <= delay self ->
  srv (issued w) = Responds r ->
  status_code r = 200 ->
  payload r = Parsed (JObj fields) ->
  dict_get "ygData" fields = Some v ->
  get_json srv rnd self target parts opts w
  = (Ret v, after_one_request self opts uri w).
Proof.
  intros Huri Hdelay Hsrv Hstatus Hbody Hfield.
  rewrite (get_json_spec _ _ _ _ _ _ uri), Hsrv by done.
  unfold verdict, json_of. rewrite Hstatus, Hbody. cbn.
  by rewrite Hfield.
Qed.

(** ** Pacing *)




(** ** The streaming path *)

Lemma download_attempts_spec
    (srv : nat -> transport) (self : api) (url : string) (r : response) :
  0 <= delay self ->
  forall (k retries : nat) (w : world),
    (k <= retries)%nat ->
    consecutive_400 srv (issued w) k = true ->
    srv (issued w + k)%nat = Responds r ->
    status_code r <> 400 \/ k = retries ->
    download_attempts srv self url retries w
    = (settle r,
       World (issued w + k + 1) (drawn w)
         (log w ++ retried_times k (delay self) url
                ++ [ESleep (delay self); EGet url []])%list).
Proof.
  intros Hdelay. induction k as [| k IH]; intros retries w Hk H400 Hlast Hstop.
  - rewrite Nat.add_0_r in Hlast.
    destruct retries as [| retries]; cbn [download_attempts];
      unfold bind at 1; rewrite sleep_ok by done;
      unfold bind at 1, s_get; cbn [issued logged]; rewrite Hlast.
    + unfold bind, lift, ret, settle, raise_for_status, sent. cbn.
      rewrite Nat.add_0_r, Nat.add_1_r, <- app_assoc.
      by destruct (_ && _).
    + destruct Hstop as [Hne | Heq]; [| discriminate].
      destruct (Z.eqb_spec (status_code r) 400); [done |].
      unfold bind, lift, ret, settle, raise_for_status, sent. cbn.
      rewrite Nat.add_0_r, Nat.add_1_r, <- app_assoc.
      by destruct (_ && _).
  - destruct retries as [| retries]; [lia |].
    cbn [consecutive_400] in H400. apply andb_true_iff in H400 as [Hfirst Hrest].
    unfold is_400 in Hfirst.
    destruct (srv (issued w)) as [r0 | | |] eqn:Hr0; try discriminate.
    cbn [download_attempts].
    unfold bind at 1; rewrite sleep_ok by done.
    unfold bind at 1, s_get; cbn [issued logged]; rewrite Hr0, Hfirst.
    unfold bind at 1. rewrite sleep_ok by lia.
    rewrite (IH retries).
    + cbn [issued drawn log logged sent retried_times retried].
      f_equal. f_equal; [lia |]. by rewrite <- !app_assoc.
    + lia.
    + exact Hrest.
    + cbn [issued logged sent]. rewrite <- Hlast. f_equal. lia.
    + destruct Hstop as [Hne | Heq]; [by left | right; lia].
Qed.

(** C8, as the code has it.  download_file retries a 400 up to 5 times;
    each retried attempt is followed by a fixed 5-second sleep (then the
    pacing sleep of the next attempt), with no random draw.  When, after k
    retried 400s (k <= 5), a reply is not a 400 or is the sixth 400 in a
    row, the call is settled by that reply with no further request: a
    status from 400 to 599 (the sixth 400 included) raises HTTPError, any
    other status (2xx, but also 1xx and 3xx such as 304) returns the
    response. *)
Theorem download_file_retry_rule
    (srv : nat -> transport) (self : api) (url : string)
    (k : nat) (r : response) (w : world) :
  0 <= delay self ->
  (k <= 5)%nat ->
  consecutive_400 srv (issued w) k = true ->
  srv (issued w + k)%nat = Responds r ->
  status_code r <> 400 \/ k = 5%nat ->
  download_file srv self url w
  = (if (400 <=? status_code r) && (status_code r <? 600)
     then Exc (HTTPError r) else Ret r,
     World (issued w + k + 1) (drawn w)
       (log w ++ retried_times k (delay self) url
              ++ [ESleep (delay self); EGet url []])%list).
Proof.
  intros Hdelay Hk H400 Hlast Hstop.
  unfold download_file.
  by rewrite (download_attempts_spec srv self url r Hdelay k 5 w).
Qed.

(** Six 400s in a row: five retried attempts, then HTTPError. *)
Lemma download_file_retry_rule_witness :
  download_file (fun _ => Responds (Response 400 NoBody)) (Api "mygroup" 2)
    "https://example.org/f" fresh
  = (Exc (HTTPError (Response 400 NoBody)),
     World 6 0
       [ESleep 2; EGet "https://example.org/f" []; ESleep 5;
        ESleep 2; EGet "https://example.org/f" []; ESleep 5;
        ESleep 2; EGet "https://example.org/f" []; ESleep 5;
        ESleep 2; EGet "https://example.org/f" []; ESleep 5;
        ESleep 2; EGet "https://example.org/f" []; ESleep 5;
        ESleep 2; EGet "https://example.org/f" []]).
Proof.
  apply (download_file_retry_rule
           (fun _ => Responds (Response 400 NoBody)) (Api "mygroup" 2)
           "https://example.org/f" 5%nat (Response 400 NoBody) fresh).
  - simpl. lia.
  - lia.
  - reflexivity.
  - reflexivity.
  - right. reflexivity.
Defined.

(** C8 as stated fails at a 304: it is neither 2xx nor 400, and download_file
    returns the response instead of raising. *)
Lemma download_file_304_does_not_raise :
  ~ (200 <= status_code (Response 304 NoBody) < 300)
  /\ status_code (Response 304 NoBody) <> 400
  /\ download_file (fun _ => Responds (Response 304 NoBody)) (Api "mygroup" 0)
       "https://example.org/f" fresh
     = (Ret (Response 304 NoBody),
        World 1 0 [ESleep 0; EGet "https://example.org/f" []])
  /\ ~ (exists e,
          fst (download_file (fun _ => Responds (Response 304 NoBody))
                 (Api "mygroup" 0) "https://example.org/f" fresh) = Exc e).
Proof.
  split; [cbn; lia | split; [cbn; lia | split; [reflexivity |]]].
  intros [e He]. discriminate He.
Qed.

(** * Further properties of the code *)

(** ** What a call of get_json can do *)

Lemma verdict_exceptions (t : transport) (e : exn) :
  verdict t = Exc e ->
  e = Recoverable \/ e = OtherRequestException \/ e = ValueError
  \/ e = KeyError "ygData" \/ e = TypeError
  \/ e = AuthenticationError \/ e = NotFound.
Proof.
  destruct t as [r | | |]; cbn; try (intros [= <-]; tauto).
  destruct (status_code r =? 200).
  - unfold json_of, getitem.
    destruct (payload r) as [| | []]; cbn; try (intros [= <-]; tauto).
    destruct (dict_get _ _); [discriminate | intros [= <-]; tauto].
  - unfold extract_ygError, json_of, getitem.
    assert (Hstatus : forall e', error_of_status (status_code r) = e' ->
              e' = Recoverable \/ e' = AuthenticationError \/ e' = NotFound).
    { intros e' <-. unfold error_of_status. repeat case_match; tauto. }
    destruct (payload r) as [| | []]; cbn; try (intros [= <-]; tauto);
      try (intros [= He]; destruct (Hstatus _ He) as [-> | [-> | ->]]; tauto).
    destruct (dict_get _ _); cbn;
      intros [= He]; destruct (Hstatus _ He) as [-> | [-> | ->]]; tauto.
Qed.

(** The three ways a call of get_json goes. *)
Lemma get_json_cases
    (srv : nat -> transport) (rnd : nat -> Z) (self : api) (target : string)
    (parts : list part) (opts : list (string * part)) (w : world) :
  (uri_of self target parts = Exc (KeyError target)
   /\ get_json srv rnd self target parts opts w = (Exc (KeyError target), w))
  \/ (delay self < 0
      /\ get_json srv rnd self target parts opts w = (Exc ValueError, w))
  \/ (exists uri,
        uri_of self target parts = Ret uri /\ 0 <= delay self
        /\ get_json srv rnd self target parts opts w
           = (match verdict (srv (issued w)) with
              | Exc Recoverable => Exc (NameError "i")
              | o => o
              end,
              after_one_request self opts uri w)).
Proof.
  destruct (API_VERSIONS !! target) as [version |] eqn:Hv.
  - destruct (uri_of_known self target version parts Hv) as [uri Huri].
    destruct (Z.lt_ge_cases (delay self) 0) as [Hneg | Hpos].
    + right; left. split; [done |].
      unfold get_json. rewrite Huri. unfold bind at 1, lift. unfold bind.
      by rewrite sleep_negative.
    + right; right. exists uri. repeat split; [done | done |].
      by apply get_json_spec.
  - left. pose proof (uri_of_unknown self target parts Hv) as Huri.
    split; [done |]. unfold get_json. by rewrite Huri.
Qed.

Lemma get_json_leaves
    (srv : nat -> transport) (rnd : nat -> Z) (self : api) (target : string)
    (parts : list part) (opts : list (string * part)) (w : world) (e : exn) :
  fst (get_json srv rnd self target parts opts w) = Exc e ->
  leaves_get_json target e.
Proof.
  intros He. unfold leaves_get_json.
  destruct (get_json_cases srv rnd self target parts opts w)
    as [[_ Hrun] | [[_ Hrun] | (uri & _ & _ & Hrun)]];
    rewrite Hrun in He; cbn in He.
  - injection He as <-. tauto.
  - injection He as <-. tauto.
  - destruct (verdict (srv (issued w))) as [v | e'] eqn:Hverdict;
      [discriminate |].
    destruct (verdict_exceptions _ _ Hverdict)
      as [-> | [-> | [-> | [-> | [-> | [-> | ->]]]]]];
      injection He as <-; tauto.
Qed.

(** X1. Whatever the server does, the only exceptions that leave get_json
    are: KeyError (unknown target, or a 200 body without ygData),
    ValueError, TypeError, the NameError of the unbound [i], a transport
    exception other than ConnectionError and Timeout, AuthenticationError
    and NotFound.  In particular never Recoverable, ConnectionError,
    Timeout or HTTPError. *)
Theorem get_json_raises_only
    (srv : nat -> transport) (rnd : nat -> Z) (self : api) (target : string)
    (parts : list part) (opts : list (string * part)) (w : world) (e : exn) :
  fst (get_json srv rnd self target parts opts w) = Exc e ->
  leaves_get_json target e
  /\ e <> Recoverable /\ e <> ConnectionError /\ e <> Timeout
  /\ (forall r, e <> HTTPError r).
Proof.
  intros He.
  pose proof (get_json_leaves _ _ _ _ _ _ _ _ He) as Hin.
  split; [exact Hin |].
  unfold leaves_get_json in Hin.
  split; [| split; [| split; [| intros r]]]; intros ->;
    repeat (destruct Hin as [Hin | Hin]; try discriminate Hin); discriminate Hin.
Qed.

Lemma get_json_raises_only_witness :
  leaves_get_json "messages" (NameError "i")
  /\ NameError "i" <> Recoverable /\ NameError "i" <> ConnectionError
  /\ NameError "i" <> Timeout /\ (forall r, NameError "i" <> HTTPError r).
Proof.
  apply (get_json_raises_only (fun _ => TimesOut) (fun _ => 0)
           (Api "mygroup" 0) "messages" [] [] fresh (NameError "i")).
  reflexivity.
Defined.

(** X2. The footprint of a call of get_json.  It adds to the log either
    nothing or the pacing sleep followed by one request to the URI of the
    target; it sends as many requests as the log shows (none or one), and
    draws no random number: no backoff is ever slept. *)
Theorem get_json_footprint
    (srv : nat -> transport) (rnd : nat -> Z) (self : api) (target : string)
    (parts : list part) (opts : list (string * part)) (w : world) :
  exists evs,
    log (snd (get_json srv rnd self target parts opts w)) = (log w ++ evs)%list
    /\ (evs = []
        \/ exists uri, uri_of self target parts = Ret uri
                       /\ evs = [ESleep (delay self); EGet uri opts])
    /\ issued (snd (get_json srv rnd self target parts opts w))
       = (issued w + requests evs)%nat
    /\ drawn (snd (get_json srv rnd self target parts opts w)) = drawn w.
Proof.
  destruct (get_json_cases srv rnd self target parts opts w)
    as [[_ Hrun] | [[_ Hrun] | (uri & Huri & _ & Hrun)]]; rewrite Hrun.
  - exists []. cbn. rewrite app_nil_r. repeat split; [by left | lia].
  - exists []. cbn. rewrite app_nil_r. repeat split; [by left | lia].
  - exists [ESleep (delay self); EGet uri opts]. cbn.
    rewrite <- app_assoc. repeat split; [right; eauto | lia].
Qed.

(** ** Classification, on concrete replies *)

Lemma auth_status_raises_AuthenticationError_witness :
  get_json (fun _ => Responds (Response 307 NoBody)) (fun _ => 0)
    (Api "mygroup" 1) "members" [] [] fresh
  = (Exc AuthenticationError,
     after_one_request (Api "mygroup" 1) []
       (BASE_URI ++ "/v1/groups/mygroup/members") fresh).
Proof.
  apply (auth_status_raises_AuthenticationError
           (fun _ => Responds (Response 307 NoBody)) (fun _ => 0)
           (Api "mygroup" 1) "members" [] [] _ fresh (Response 307 NoBody)).
  - reflexivity.
  - simpl. lia.
  - reflexivity.
  - left. reflexivity.
  - reflexivity.
Defined.

Lemma not_found_status_raises_NotFound_witness :
  get_json (fun _ => Responds (Response 404 Malformed)) (fun _ => 0)
    (Api "mygroup" 0) "messages" [PInt 99] [] fresh
  = (Exc NotFound,
     after_one_request (Api "mygroup" 0) []
       (BASE_URI ++ "/v1/groups/mygroup/messages/99") fresh).
Proof.
  apply (not_found_status_raises_NotFound
           (fun _ => Responds (Response 404 Malformed)) (fun _ => 0)
           (Api "mygroup" 0) "messages" [PInt 99] [] _ fresh
           (Response 404 Malformed)).
  - reflexivity.
  - simpl. lia.
  - reflexivity.
  - reflexivity.
  - reflexivity.
Defined.

Lemma retryable_status_raises_NameError_witness :
  get_json (fun _ => Responds (Response 204 NoBody)) (fun _ => 0)
    (Api "mygroup" 0) "files" [] [] fresh
  = (Exc (NameError "i"),
     after_one_request (Api "mygroup" 0) []
       (BASE_URI ++ "/v2/groups/mygroup/files") fresh).
Proof.
  apply (retryable_status_raises_NameError
           (fun _ => Responds (Response 204 NoBody)) (fun _ => 0)
           (Api "mygroup" 0) "files" [] [] _ fresh (Response 204 NoBody)).
  - reflexivity.
  - simpl. lia.
  - reflexivity.
  - simpl. lia.
  - simpl. lia.
  - simpl. lia.
  - simpl. lia.
  - simpl. lia.
  - reflexivity.
Defined.

Lemma network_error_raises_NameError_witness :
  get_json (fun _ => TimesOut) (fun _ => 0) (Api "mygroup" 0) "polls" [] [] fresh
  = (Exc (NameError "i"),
     after_one_request (Api "mygroup" 0) []
       (BASE_URI ++ "/v1/groups/mygroup/polls") fresh).
Proof.
  apply (network_error_raises_NameError (fun _ => TimesOut) (fun _ => 0)
           (Api "mygroup" 0) "polls" [] []).
  - reflexivity.
  - simpl. lia.
  - right. reflexivity.
Defined.

Lemma non_dict_error_body_raises_TypeError_witness :
  get_json (fun _ => Responds (Response 500 (Parsed (JNum 0)))) (fun _ => 0)
    (Api "mygroup" 0) "links" [] [] fresh
  = (Exc TypeError,
     after_one_request (Api "mygroup" 0) []
       (BASE_URI ++ "/v1/groups/mygroup/links") fresh).
Proof.
  apply (non_dict_error_body_raises_TypeError
           (fun _ => Responds (Response 500 (Parsed (JNum 0)))) (fun _ => 0)
           (Api "mygroup" 0) "links" [] [] _ fresh
           (Response 500 (Parsed (JNum 0))) ltac:(reflexivity) ltac:(simpl; lia)
           ltac:(reflexivity) (JNum 0)).
  - simpl. lia.
  - reflexivity.
  - reflexivity.
Defined.

Lemma get_json_negative_delay
    (srv : nat -> transport) (rnd : nat -> Z) (self : api) (target : string)
    (parts : list part) (opts : list (string * part)) (uri : string) (w : world) :
  uri_of self target parts = Ret uri ->
  delay self < 0 ->
  get_json srv rnd self target parts opts w = (Exc ValueError, w).
Proof.
  intros Huri Hneg. unfold get_json. rewrite Huri.
  unfold bind at 1, lift. unfold bind. by rewrite sleep_negative.
Qed.

Lemma get_json_unresolved
    (srv : nat -> transport) (rnd : nat -> Z) (self : api) (target : string)
    (parts : list part) (opts : list (string * part)) (e : exn) (w : world) :
  uri_of self target parts = Exc e ->
  get_json srv rnd self target parts opts w = (Exc e, w).
Proof. intros Huri. unfold get_json. by rewrite Huri. Qed.

(** X8. Two replies with the same status other than 200, each with a body
    that is absent, undecodable or a JSON object, end a call the same way:
    with such bodies the outcome depends on the status code only. *)
Theorem same_status_same_outcome
    (srv1 srv2 : nat -> transport) (rnd : nat -> Z) (self : api)
    (target : string) (parts : list part) (opts : list (string * part))
    (w : world) (r1 r2 : response) :
  srv1 (issued w) = Responds r1 ->
  srv2 (issued w) = Responds r2 ->
  status_code r1 = status_code r2 ->
  status_code r1 <> 200 ->
  undecodable_or_dict (payload r1) = true ->
  undecodable_or_dict (payload r2) = true ->
  get_json srv1 rnd self target parts opts w
  = get_json srv2 rnd self target parts opts w.
Proof.
  intros H1 H2 Hsame Hs Hb1 Hb2.
  destruct (uri_of self target parts) as [uri | e] eqn:Huri.
  - destruct (Z.lt_ge_cases (delay self) 0) as [Hneg | Hpos].
    + by rewrite !(get_json_negative_delay _ _ _ _ _ _ uri).
    + rewrite !(get_json_spec _ _ _ _ _ _ uri) by done.
      rewrite H1, H2, !verdict_by_status by congruence.
      by rewrite Hsame.
  - by rewrite !(get_json_unresolved _ _ _ _ _ _ e).
Qed.

Lemma same_status_same_outcome_witness :
  get_json (fun _ => Responds (Response 502 NoBody)) (fun _ => 0)
    (Api "mygroup" 0) "messages" [] [] fresh
  = get_json (fun _ => Responds (Response 502 (Parsed (JObj [("ygError", JNull)]))))
      (fun _ => 0) (Api "mygroup" 0) "messages" [] [] fresh.
Proof.
  apply (same_status_same_outcome _ _ _ _ _ _ _ fresh
           (Response 502 NoBody)
           (Response 502 (Parsed (JObj [("ygError", JNull)])))).
  - reflexivity.
  - reflexivity.
  - reflexivity.
  - simpl. lia.
  - reflexivity.
  - reflexivity.
Defined.

(** X9. A 200 reply from which ygData cannot be read ends the call with the
    error of the read, after the one request: ValueError for a body that is
    absent or not JSON, KeyError for an object without ygData, TypeError for
    JSON that is no object.  It is neither classified nor retried. *)
Theorem ok_without_ygData_raises
    (srv : nat -> transport) (rnd : nat -> Z) (self : api) (target : string)
    (parts : list part) (opts : list (string * part)) (uri : string)
    (w : world) (r : response) :
  uri_of self target parts = Ret uri ->
  0 <= delay self ->
  srv (issued w) = Responds r ->
  status_code r = 200 ->
  (forall fields, payload r = Parsed (JObj fields) ->
                  dict_get "ygData" fields = None) ->
  get_json srv rnd self target parts opts w
  = (match payload r with
     | NoBody | Malformed => Exc ValueError
     | Parsed (JObj _) => Exc (KeyError "ygData")
     | Parsed _ => Exc TypeError
     end,
     after_one_request self opts uri w).
Proof.
  intros Huri Hdelay Hsrv Hstatus Hfield.
  rewrite (get_json_spec _ _ _ _ _ _ uri), Hsrv by done.
  unfold verdict, json_of. rewrite Hstatus. cbn.
  destruct (payload r) as [| | v]; try reflexivity.
  destruct v; try reflexivity.
  cbn. by rewrite (Hfield _ eq_refl).
Qed.

Lemma ok_without_ygData_raises_witness :
  get_json (fun _ => Responds (Response 200 (Parsed (JObj [("ygError", JNull)]))))
    (fun _ => 0) (Api "mygroup" 0) "messages" [] [] fresh
  = (Exc (KeyError "ygData"),
     after_one_request (Api "mygroup" 0) []
       (BASE_URI ++ "/v1/groups/mygroup/messages") fresh).
Proof.
  apply (ok_without_ygData_raises _ (fun _ => 0) (Api "mygroup" 0) "messages"
           [] [] _ fresh (Response 200 (Parsed (JObj [("ygError", JNull)])))).
  - reflexivity.
  - simpl. lia.
  - reflexivity.
  - reflexivity.
  - intros fields [= <-]. reflexivity.
Defined.

(** X10. Nothing is cached: two calls in a row for the same resource send
    two requests, each after its own pacing sleep, and when both replies are
    a 200 with ygData the second call returns what the second reply holds. *)
Theorem two_calls_two_requests
    (srv : nat -> transport) (rnd : nat -> Z) (self : api) (target : string)
    (parts : list part) (opts : list (string * part)) (uri : string)
    (w : world) (r1 r2 : response) (fields1 fields2 : list (string * json))
    (v1 v2 : json) :
  uri_of self target parts = Ret uri ->
  0 <= delay self ->
  srv (issued w) = Responds r1 ->
  srv (S (issued w)) = Responds r2 ->
  status_code r1 = 200 -> payload r1 = Parsed (JObj fields1) ->
  dict_get "ygData" fields1 = Some v1 ->
  status_code r2 = 200 -> payload r2 = Parsed (JObj fields2) ->
  dict_get "ygData" fields2 = Some v2 ->
  (get_json srv rnd self target parts opts ;;
   get_json srv rnd self target parts opts) w
  = (Ret v2,
     World (S (S (issued w))) (drawn w)
       (log w ++ [ESleep (delay self); EGet uri opts;
                  ESleep (delay self); EGet uri opts])%list).
Proof.
  intros Huri Hdelay Hsrv1 Hsrv2 Hs1 Hb1 Hf1 Hs2 Hb2 Hf2.
  unfold bind.
  rewrite (get_json_returns_ygData _ _ _ _ _ _ uri w r1 fields1 v1) by done.
  rewrite (get_json_returns_ygData _ _ _ _ _ _ uri _ r2 fields2 v2) by done.
  unfold after_one_request, sent, logged. cbn.
  by rewrite <- !app_assoc.
Qed.

Lemma two_calls_two_requests_witness :
  (get_json (fun n => Responds (Response 200 (Parsed (JObj [("ygData", JNum (Z.of_nat n))]))))
     (fun _ => 0) (Api "mygroup" 0) "statistics" [] [] ;;
   get_json (fun n => Responds (Response 200 (Parsed (JObj [("ygData", JNum (Z.of_nat n))]))))
     (fun _ => 0) (Api "mygroup" 0) "statistics" [] []) fresh
  = (Ret (JNum 1),
     World 2 0
       ([] ++ [ESleep 0; EGet (BASE_URI ++ "/v1/groups/mygroup/statistics") [];
               ESleep 0; EGet (BASE_URI ++ "/v1/groups/mygroup/statistics") []])%list).
Proof.
  apply (two_calls_two_requests
           (fun n => Responds (Response 200 (Parsed (JObj [("ygData", JNum (Z.of_nat n))]))))
           (fun _ => 0) (Api "mygroup" 0) "statistics" [] [] _ fresh
           (Response 200 (Parsed (JObj [("ygData", JNum 0)])))
           (Response 200 (Parsed (JObj [("ygData", JNum 1)])))
           [("ygData", JNum 0)] [("ygData", JNum 1)] (JNum 0) (JNum 1)).
  - reflexivity.
  - simpl. lia.
  - reflexivity.
  - reflexivity.
  - reflexivity.
  - reflexivity.
  - reflexivity.
  - reflexivity.
  - reflexivity.
  - reflexivity.
Defined.

(** ** The shape of the URIs *)

Lemma append_assoc (a b c : string) : ((a ++ b) ++ c = a ++ (b ++ c))%string.
Proof.
  induction a as [| ch a IH]; [done |].
  change (String ch ((a ++ b) ++ c) = String ch (a ++ (b ++ c)))%string.
  by rewrite IH.
Qed.

Lemma append_empty_r (a : string) : (a ++ "")%string = a.
Proof.
  induction a as [| ch a IH]; [done |].
  change (String ch (a ++ "") = String ch a)%string.
  by rewrite IH.
Qed.

(** Joining a segment and the stringified parts with slashes. *)
Lemma join_trail (seg : string) (parts : list part) :
  join "/" (seg :: map str parts) = (seg ++ trail parts)%string.
Proof.
  revert seg. induction parts as [| p parts IH]; intros seg.
  - cbn. by rewrite append_empty_r.
  - change (join "/" (seg :: map str (p :: parts)))
      with (seg ++ "/" ++ join "/" (str p :: map str parts))%string.
    by rewrite IH.
Qed.

Lemma uri_of_stem_trail (self : api) (target version : string) (parts : list part) :
  API_VERSIONS !! target = Some version ->
  uri_of self target parts = Ret (stem self target version ++ trail parts)%string.
Proof.
  intros Hv. unfold uri_of, stem. rewrite Hv. cbn [obind]. f_equal.
  destruct (String.eqb target "HackGroupInfo").
  - transitivity
      (BASE_URI ++ "/" ++ version ++ "/" ++ "groups" ++ "/" ++ group self
       ++ "/" ++ join "/" ("" :: map str parts))%string; [reflexivity |].
    rewrite join_trail, !append_assoc. reflexivity.
  - transitivity
      (BASE_URI ++ "/" ++ version ++ "/" ++ "groups" ++ "/" ++ group self
       ++ "/" ++ join "/" (target :: map str parts))%string; [reflexivity |].
    rewrite join_trail, !append_assoc. reflexivity.
Qed.

(** X11. The URI of a known target, for any path parts: the base, the
    version of the target, "groups", the group, the target and then each
    part after a slash, in order and unescaped.  For HackGroupInfo the
    target segment is empty, so with path parts the URI has two slashes in
    a row after the group. *)
Theorem uri_of_shape (self : api) (target version : string) (parts : list part) :
  API_VERSIONS !! target = Some version ->
  uri_of self target parts
  = Ret (BASE_URI ++ "/" ++ version ++ "/groups/" ++ group self ++ "/"
         ++ (if String.eqb target "HackGroupInfo" then "" else target)
         ++ trail parts)%string.
Proof.
  intros Hv. rewrite (uri_of_stem_trail self target version parts Hv).
  unfold stem. by rewrite !append_assoc.
Qed.

Lemma uri_of_shape_witness :
  uri_of (Api "mygroup" 0) "HackGroupInfo" [PStr "a/b"; PInt (-7)]
  = Ret (BASE_URI ++ "/v1/groups/mygroup//a/b/-7")%string.
Proof.
  apply (uri_of_shape (Api "mygroup" 0) "HackGroupInfo" "v1" [PStr "a/b"; PInt (-7)]).
  reflexivity.
Defined.

Lemma API_VERSIONS_None (target : string) :
  API_VERSIONS !! target = None <-> target ∉ resource_names.
Proof.
  unfold API_VERSIONS. rewrite <- not_elem_of_list_to_map. reflexivity.
Qed.

Lemma API_VERSIONS_Some (target version : string) :
  API_VERSIONS !! target = Some version ->
  target ∈ resource_names
  /\ version = (if String.eqb target "files" || String.eqb target "albums"
                then "v2" else "v1").
Proof.
  unfold API_VERSIONS. intros Hv.
  apply elem_of_list_to_map_2 in Hv.
  repeat (apply elem_of_cons in Hv as [[= -> ->] | Hv];
          [split; [unfold resource_names; set_solver | reflexivity] |]).
  by apply elem_of_nil in Hv.
Qed.

(** X12. The targets get_json resolves are exactly the ten keys of
    API_VERSIONS; any other name is a KeyError carrying that name.  The
    version in the URI is v2 for files and albums, v1 for the other eight. *)
Theorem uri_of_resolves_exactly (self : api) (target : string) (parts : list part) :
  ((exists uri, uri_of self target parts = Ret uri) <-> target ∈ resource_names)
  /\ (uri_of self target parts = Exc (KeyError target) <-> target ∉ resource_names)
  /\ (forall version, API_VERSIONS !! target = Some version ->
        version = (if String.eqb target "files" || String.eqb target "albums"
                   then "v2" else "v1")).
Proof.
  split; [| split].
  - split.
    + intros [uri Huri]. destruct (API_VERSIONS !! target) as [v |] eqn:Hv.
      * by destruct (API_VERSIONS_Some target v Hv).
      * by rewrite (uri_of_unknown self target parts Hv) in Huri.
    + intros Hin. destruct (API_VERSIONS !! target) as [v |] eqn:Hv.
      * by apply (uri_of_known self target v).
      * by apply API_VERSIONS_None in Hv.
  - split.
    + intros Huri. apply API_VERSIONS_None.
      destruct (API_VERSIONS !! target) as [v |] eqn:Hv; [| done].
      destruct (uri_of_known self target v parts Hv) as [uri Hret]. congruence.
    + intros Hout. apply uri_of_unknown. by apply API_VERSIONS_None.
  - intros version Hv. by destruct (API_VERSIONS_Some target version Hv).
Qed.

Lemma to_int_proper (n : Z) :
  Z.to_int n <> Decimal.Pos Decimal.Nil /\ Z.to_int n <> Decimal.Neg Decimal.Nil.
Proof.
  destruct n as [| p | p]; cbn; split; try discriminate;
    intros [= H]; by apply (DecimalPos.Unsigned.to_uint_nonnil p).
Qed.

(** Python's str is one-to-one on integers. *)
Lemma str_int_inj (n m : Z) : str (PInt n) = str (PInt m) -> n = m.
Proof.
  cbn. intros Heq. apply DecimalZ.to_int_inj.
  destruct (to_int_proper n) as [Hn1 Hn2], (to_int_proper m) as [Hm1 Hm2].
  pose proof (NilZero.isi (Z.to_int n) Hn1 Hn2) as Hn.
  pose proof (NilZero.isi (Z.to_int m) Hm1 Hm2) as Hm.
  rewrite Heq in Hn. congruence.
Qed.

Lemma trail_app (pre post : list part) :
  trail (pre ++ post) = (trail pre ++ trail post)%string.
Proof.
  induction pre as [| p pre IH]; [done |].
  cbn [app trail]. by rewrite IH, !append_assoc.
Qed.

(** X13. Different numbers give different URIs: two fetches of a known
    target whose path parts differ only in a final integer are sent to the
    same URI only if the integers are equal. *)
Theorem uri_of_distinguishes_numbers
    (self : api) (target : string) (pre : list part) (n m : Z) (uri : string) :
  uri_of self target (pre ++ [PInt n]) = Ret uri ->
  uri_of self target (pre ++ [PInt m]) = Ret uri ->
  n = m.
Proof.
  intros Hn Hm.
  destruct (API_VERSIONS !! target) as [v |] eqn:Hv.
  - rewrite (uri_of_stem_trail self target v _ Hv) in Hn.
    rewrite (uri_of_stem_trail self target v _ Hv) in Hm.
    rewrite <- Hm in Hn. injection Hn as Heq.
    rewrite !trail_app in Heq. cbn [trail] in Heq.
    rewrite !append_empty_r in Heq.
    repeat (apply (inj (String.app _)) in Heq).
    by apply str_int_inj.
  - by rewrite (uri_of_unknown self target _ Hv) in Hn.
Qed.

Lemma uri_of_distinguishes_numbers_witness : 12 = 12.
Proof.
  apply (uri_of_distinguishes_numbers (Api "mygroup" 0) "messages" [] 12 12
           (BASE_URI ++ "/v1/groups/mygroup/messages/12")%string).
  - reflexivity.
  - reflexivity.
Defined.

(** ** Growth of the backoff *)

Lemma backoff_time_range (n draw : Z) :
  0 <= n ->
  exists v, backoff_time n draw = Ret v /\ 2 ^ n <= v <= 2 ^ (n + 1).
Proof.
  intros Hn. destruct (pow2_succ_ge n Hn) as [Hpos Hsucc].
  unfold backoff_time. destruct (Z.ltb_spec n 0); [lia |].
  apply randint_range. lia.
Qed.

(** X14. The backoff never shrinks from one attempt to the next: whatever
    the generator draws, the duration for attempt n is at most 2^(n+1) and
    the duration for attempt n+1 is at least 2^(n+1).  The two can only be
    equal at that common bound. *)
Theorem backoff_time_never_shrinks (n draw1 draw2 v1 v2 : Z) :
  0 <= n ->
  backoff_time n draw1 = Ret v1 ->
  backoff_time (n + 1) draw2 = Ret v2 ->
  v1 <= 2 ^ (n + 1) <= v2 /\ (v1 = v2 -> v1 = 2 ^ (n + 1)).
Proof.
  intros Hn H1 H2.
  destruct (backoff_time_range n draw1 Hn) as (v1' & H1' & Hr1).
  destruct (backoff_time_range (n + 1) draw2 ltac:(lia)) as (v2' & H2' & Hr2).
  rewrite H1 in H1'. rewrite H2 in H2'.
  injection H1' as <-. injection H2' as <-. lia.
Qed.

Lemma backoff_time_never_shrinks_witness :
  4 <= 2 ^ (1 + 1) <= 4 /\ (4 = 4 -> 4 = 2 ^ (1 + 1)).
Proof.
  apply (backoff_time_never_shrinks 1 2 0 4 4).
  - lia.
  - reflexivity.
  - reflexivity.
Defined.

(** ** Bounds on the streaming path *)

Lemma download_attempts_bounds
    (srv : nat -> transport) (self : api) (url : string) :
  0 <= delay self ->
  forall (retries : nat) (w : world) (o : outcome response) (w' : world),
    download_attempts srv self url retries w = (o, w') ->
    exists evs,
      log w' = (log w ++ evs)%list
      /\ (1 <= requests evs <= S retries)%nat
      /\ slept evs <= Z.of_nat (S retries) * delay self + 5 * Z.of_nat retries
      /\ issued w' = (issued w + requests evs)%nat
      /\ drawn w' = drawn w.
Proof.
  intros Hdelay.
  assert (Hlast : forall (w : world) (o o' : outcome response) (w' : world) (n : nat),
            (o', sent (logged w (ESleep (delay self))) (EGet url [])) = (o, w') ->
            exists evs,
              log w' = (log w ++ evs)%list
              /\ (1 <= requests evs <= S n)%nat
              /\ slept evs <= Z.of_nat (S n) * delay self + 5 * Z.of_nat n
              /\ issued w' = (issued w + requests evs)%nat
              /\ drawn w' = drawn w).
  { intros w o o' w' n [= _ <-]. exists [ESleep (delay self); EGet url []]. cbn.
    rewrite <- app_assoc. repeat split; first [lia | nia]. }
  induction retries as [| retries IH]; intros w o w' Hrun.
  all: cbn [download_attempts] in Hrun; unfold bind at 1 in Hrun.
  all: rewrite sleep_ok in Hrun by done.
  all: unfold bind at 1, s_get in Hrun; cbn [issued logged] in Hrun.
  all: destruct (srv (issued w)) as [r | | |]; try (by eapply Hlast).
  - unfold bind, lift, ret in Hrun.
    destruct (raise_for_status r); by eapply Hlast.
  - destruct (status_code r =? 400).
    + unfold bind at 1 in Hrun. rewrite sleep_ok in Hrun by lia.
      apply IH in Hrun as (evs & Hlog & Hreq & Hslept & Hissued & Hdrawn).
      exists ([ESleep (delay self); EGet url []; ESleep 5] ++ evs)%list.
      rewrite Hlog, Hissued, Hdrawn. cbn.
      rewrite <- !app_assoc. repeat split; try lia.
    + unfold bind, lift, ret in Hrun.
      destruct (raise_for_status r); by eapply Hlast.
Qed.

(** X15. A call of download_file ends, whatever the server does, after at
    least one and at most six requests; with a pacing delay d >= 0 it
    sleeps at most 6 d + 25 seconds in all, and it draws no random
    number. *)
Theorem download_file_bounds
    (srv : nat -> transport) (self : api) (url : string) (w : world) :
  0 <= delay self ->
  exists evs,
    log (snd (download_file srv self url w)) = (log w ++ evs)%list
    /\ (1 <= requests evs <= 6)%nat
    /\ slept evs <= 6 * delay self + 25
    /\ issued (snd (download_file srv self url w)) = (issued w + requests evs)%nat
    /\ drawn (snd (download_file srv self url w)) = drawn w.
Proof.
  intros Hdelay. unfold download_file.
  destruct (download_attempts srv self url 5 w) as [o w'] eqn:Hrun.
  destruct (download_attempts_bounds srv self url Hdelay 5 w o w' Hrun)
    as (evs & Hlog & Hreq & Hslept & Hissued & Hdrawn).
  exists evs. cbn. repeat split; try done; lia.
Qed.

Lemma download_file_bounds_witness :
  exists evs,
    log (snd (download_file (fun _ => Responds (Response 400 NoBody))
                (Api "mygroup" 3) "u" fresh)) = (log fresh ++ evs)%list
    /\ (1 <= requests evs <= 6)%nat
    /\ slept evs <= 6 * delay (Api "mygroup" 3) + 25
    /\ issued (snd (download_file (fun _ => Responds (Response 400 NoBody))
                      (Api "mygroup" 3) "u" fresh))
       = (issued fresh + requests evs)%nat
    /\ drawn (snd (download_file (fun _ => Responds (Response 400 NoBody))
                     (Api "mygroup" 3) "u" fresh)) = drawn fresh.
Proof.
  apply (download_file_bounds (fun _ => Responds (Response 400 NoBody))
           (Api "mygroup" 3) "u" fresh).
  simpl. lia.
Defined.

(** After k retried 400s the loop stands where it started, k requests
    later and with k retries less. *)
Lemma download_attempts_skip
    (srv : nat -> transport) (self : api) (url : string) :
  0 <= delay self ->
  forall (k retries : nat) (w : world),
    consecutive_400 srv (issued w) k = true ->
    download_attempts srv self url (k + retries) w
    = download_attempts srv self url retries
        (World (issued w + k) (drawn w)
           (log w ++ retried_times k (delay self) url)%list).
Proof.
  intros Hdelay. induction k as [| k IH]; intros retries w H400.
  - cbn. rewrite Nat.add_0_r, app_nil_r. by destruct w.
  - cbn [consecutive_400] in H400.
    apply andb_true_iff in H400 as [Hfirst Hrest].
    unfold is_400 in Hfirst.
    destruct (srv (issued w)) as [r0 | | |] eqn:Hr0; try discriminate.
    cbn [Nat.add download_attempts].
    unfold bind at 1; rewrite sleep_ok by done.
    unfold bind at 1, s_get; cbn [issued logged]; rewrite Hr0, Hfirst.
    unfold bind at 1. rewrite sleep_ok by lia.
    rewrite IH by exact Hrest.
    cbn [issued drawn log logged sent retried_times retried].
    f_equal. f_equal; [lia |]. by rewrite <- !app_assoc.
Qed.

(** X16. On the streaming path an exception of the transport is not
    handled: when, after k retried 400s (k <= 5), Session.get raises
    (ConnectionError, Timeout or another transport exception), that very
    exception leaves download_file at once, with no pause and no further
    request. *)
Theorem download_file_transport_error
    (srv : nat -> transport) (self : api) (url : string)
    (k : nat) (e : exn) (w : world) :
  0 <= delay self ->
  (k <= 5)%nat ->
  consecutive_400 srv (issued w) k = true ->
  transport_exn (srv (issued w + k)%nat) = Some e ->
  download_file srv self url w
  = (Exc e,
     World (issued w + k + 1) (drawn w)
       (log w ++ retried_times k (delay self) url
              ++ [ESleep (delay self); EGet url []])%list).
Proof.
  intros Hdelay Hk H400 Hexn. unfold download_file.
  replace 5%nat with (k + (5 - k))%nat by lia.
  rewrite download_attempts_skip by done.
  destruct (5 - k)%nat as [| n]; cbn [download_attempts].
  all: unfold bind at 1; rewrite sleep_ok by done.
  all: unfold bind at 1, s_get; cbn [issued logged].
  all: destruct (srv (issued w + k)%nat) as [r | | |]; try discriminate.
  all: injection Hexn as <-; unfold sent; cbn.
  all: rewrite Nat.add_1_r, <- !app_assoc; reflexivity.
Qed.

Lemma download_file_transport_error_witness :
  download_file (fun n => if (n <? 2)%nat then Responds (Response 400 NoBody) else TimesOut)
    (Api "mygroup" 0) "u" fresh
  = (Exc Timeout,
     World (0 + 2 + 1) 0
       ([] ++ retried_times 2 0 "u" ++ [ESleep 0; EGet "u" []])%list).
Proof.
  apply (download_file_transport_error
           (fun n => if (n <? 2)%nat then Responds (Response 400 NoBody) else TimesOut)
           (Api "mygroup" 0) "u" 2%nat Timeout fresh).
  - simpl. lia.
  - lia.
  - reflexivity.
  - reflexivity.
Defined.

(** X17. With a negative pacing delay no request is ever sent: time.sleep
    refuses it, so get_json on a known target and download_file both raise
    ValueError and leave the world as it was. *)
Theorem negative_delay_blocks_every_call
    (srv : nat -> transport) (rnd : nat -> Z) (self : api)
    (target version : string) (parts : list part) (opts : list (string * part))
    (url : string) (w : world) :
  delay self < 0 ->
  API_VERSIONS !! target = Some version ->
  get_json srv rnd self target parts opts w = (Exc ValueError, w)
  /\ download_file srv self url w = (Exc ValueError, w).
Proof.
  intros Hneg Hv. split.
  - destruct (uri_of_known self target version parts Hv) as [uri Huri].
    by apply (get_json_negative_delay _ _ _ _ _ _ uri).
  - unfold download_file. cbn [download_attempts]. unfold bind at 1.
    by rewrite sleep_negative.
Qed.

Lemma negative_delay_blocks_every_call_witness :
  get_json (fun _ => TimesOut) (fun _ => 0) (Api "mygroup" (-1)) "messages" [] [] fresh
  = (Exc ValueError, fresh)
  /\ download_file (fun _ => TimesOut) (Api "mygroup" (-1)) "u" fresh
     = (Exc ValueError, fresh).
Proof.
  apply (negative_delay_blocks_every_call (fun _ => TimesOut) (fun _ => 0)
           (Api "mygroup" (-1)) "messages" "v1" [] [] "u" fresh).
  - simpl. lia.
  - reflexivity.
Defined.

(** ** Set-up *)

(** X18. set_warc_writer returns normally exactly when warcio was imported,
    and then it installs the writer and the capturing context, also for a
    writer that is None.  When the import had failed it always raises and
    the context stays as it was: the stored ImportError for a writer that
    is not None (the instance is untouched), and for None the NameError of
    the name capture_http, which the failed import never bound. *)
Theorem set_warc_writer_needs_warcio
    (W : Type) (m : warcio_import) (self : client W) (w : option W) :
  (fst (set_warc_writer W m self w) = None <-> m = WarcioImported)
  /\ (m = WarcioImported ->
      snd (set_warc_writer W m self w)
      = Client W (engine self) (headers self) (cookies self) w capture_http)
  /\ (m = WarcioMissing ->
      context (snd (set_warc_writer W m self w)) = context self
      /\ match w with
         | Some _ => set_warc_writer W m self w = (Some RaisedImportError, self)
         | None => fst (set_warc_writer W m self w)
                   = Some (Raised (NameError "capture_http"))
         end).
Proof.
  unfold set_warc_writer.
  destruct m, w as [x |]; cbn; repeat split; try done; intros [=].
Qed.

(** X19. What __init__ leaves in the instance.  The session headers are
    the caller's, plus Referer = BASE_URI unless the caller gave a Referer
    of their own, and nothing else; the caller's cookie jar is used only
    when it holds at least one cookie (None and an empty jar leave the
    session its own jar); there is no WARC writer and the context is the
    dummy one. *)
Theorem init_state
    (W : Type) (g : string) (cookie_jar : option (list (string * string)))
    (extra : gmap string string) (d : Z) :
  (forall k, headers (init W g cookie_jar extra d) !! k
             = match extra !! k with
               | Some v => Some v
               | None => if String.eqb k "Referer" then Some BASE_URI else None
               end)
  /\ (cookies (init W g cookie_jar extra d) = CallerJar
      <-> exists c rest, cookie_jar = Some (c :: rest))
  /\ engine (init W g cookie_jar extra d) = Api g d
  /\ ww (init W g cookie_jar extra d) = None
  /\ context (init W g cookie_jar extra d) = dummy_contextmanager.
Proof.
  split; [| split; [| done]].
  - intros k. cbn. unfold update. rewrite lookup_union.
    destruct (extra !! k) as [v |] eqn:Hk.
    + by destruct ({[ "Referer" := BASE_URI ]} !! k).
    + rewrite left_id by apply _.
      destruct (String.eqb_spec k "Referer") as [-> | Hne].
      * by rewrite lookup_singleton_eq.
      * by rewrite lookup_singleton_ne.
  - cbn. destruct cookie_jar as [[| c rest] |]; cbn; split;
      try done; try (intros (c' & rest' & [=])); eauto.
Qed.

(** ** The exception classes *)

(** X20. For the callers of get_json: an exception that leaves get_json is
    never caught by [except Recoverable], and it is caught by
    [except YGAException] exactly when it is caught by
    [except Unrecoverable] (it is then AuthenticationError or NotFound). *)
Theorem get_json_errors_are_unrecoverable
    (srv : nat -> transport) (rnd : nat -> Z) (self : api) (target : string)
    (parts : list part) (opts : list (string * part)) (w : world) (e : exn) :
  fst (get_json srv rnd self target parts opts w) = Exc e ->
  caught_by Taxonomy.Recoverable e = false
  /\ caught_by Taxonomy.YGAException e = caught_by Taxonomy.Unrecoverable e
  /\ (caught_by Taxonomy.YGAException e = true ->
      e = AuthenticationError \/ e = NotFound).
Proof.
  intros He.
  pose proof (get_json_leaves _ _ _ _ _ _ _ _ He) as Hin.
  unfold leaves_get_json in Hin.
  destruct Hin as [-> | [-> | [-> | [-> | [-> | [-> | [-> | ->]]]]]]];
    cbn; repeat split; try done; try tauto.
Qed.

Lemma get_json_errors_are_unrecoverable_witness :
  caught_by Taxonomy.Recoverable NotFound = false
  /\ caught_by Taxonomy.YGAException NotFound = caught_by Taxonomy.Unrecoverable NotFound
  /\ (caught_by Taxonomy.YGAException NotFound = true ->
      NotFound = AuthenticationError \/ NotFound = NotFound).
Proof.
  apply (get_json_errors_are_unrecoverable
           (fun _ => Responds (Response 404 NoBody)) (fun _ => 0)
           (Api "mygroup" 0) "messages" [] [] fresh NotFound).
  reflexivity.
Defined.
